(** * usersim: the stochastic trigger (tasks/frequency.py) and the shared
      Internet Explorer executor (tasks/iebrowser.py)

    A shallow embedding of the two task modules and the properties of their
    scheduling contract.

    Conventions of the embedding:
    - Python [int] is [Z]; Python [float] is [pyfloat]: a rational for the
      finite values (rounding is not modelled) plus the two infinities and
      NaN, whose comparisons and divisions follow CPython;
    - a Python [dict] with string keys is a [gmap string value];
    - a method that can raise returns [result]; the exception classes are the
      constructors of [exn];
    - [time.time()] and [random.random()] are inputs of the methods that call
      them. *)

From Stdlib Require Import ZArith QArith Lia Lqa Bool List Ascii String.
From stdpp Require Import gmap strings pretty.
Import ListNotations.

Set Warnings "-register-all".
Open Scope Z_scope.

(** ** Python values and exceptions *)

Inductive pyfloat : Type :=
| FNum (q : Q)
| FInf (negative : bool)
| FNaN.

Inductive value : Type :=
| VNone
| VBool (b : bool)
| VInt (z : Z)
| VFloat (f : pyfloat)
| VStr (s : string)
| VList (l : list value)
| VDict (d : list (string * value)).

Inductive exn : Type :=
| KeyError (msg : string)
| ValueError (msg : string)
| TypeError
| OverflowError
| ZeroDivisionError
| AttributeError
| OSError (msg : string).

Inductive result (A : Type) : Type :=
| Ok (a : A)
| Raise (e : exn).
Arguments Ok {A} a.
Arguments Raise {A} e.

#[global] Instance result_ret : MRet result := fun A a => Ok a.

#[global] Instance result_bind : MBind result := fun A B k m =>
  match m with
  | Ok a => k a
  | Raise e => Raise e
  end.

#[global] Instance result_fmap : FMap result := fun A B f m =>
  match m with
  | Ok a => Ok (f a)
  | Raise e => Raise e
  end.

Definition is_KeyError {A : Type} (r : result A) : bool :=
  match r with Raise (KeyError _) => true | _ => false end.

Definition is_ValueError {A : Type} (r : result A) : bool :=
  match r with Raise (ValueError _) => true | _ => false end.

Definition is_Ok {A : Type} (r : result A) : bool :=
  match r with Ok _ => true | Raise _ => false end.

(** ** Float operations used by the trigger *)

Definition Qltb (a b : Q) : bool := negb (Qle_bool b a).

Definition Qis_zero (q : Q) : bool := (Qnum q =? 0)%Z.

(** [a / b] on floats: a zero divisor raises; NaN propagates. *)
Definition float_div (a b : pyfloat) : result pyfloat :=
  match a, b with
  | _, FNum q =>
      if Qis_zero q then Raise ZeroDivisionError
      else match a with
           | FNum p => Ok (FNum (p / q)%Q)
           | FInf n => Ok (FInf (xorb n (Qltb q 0)))
           | FNaN => Ok FNaN
           end
  | FNaN, _ => Ok FNaN
  | _, FNaN => Ok FNaN
  | FNum _, FInf _ => Ok (FNum 0)
  | FInf _, FInf _ => Ok FNaN
  end.

(** [a < b] and [a <= b] on floats: every comparison with NaN is false. *)
Definition float_lt (a b : pyfloat) : bool :=
  match a, b with
  | FNaN, _ | _, FNaN => false
  | FNum p, FNum q => Qltb p q
  | FNum _, FInf n => negb n
  | FInf n, FNum _ => n
  | FInf n, FInf m => n && negb m
  end.

Definition float_le (a b : pyfloat) : bool :=
  match a, b with
  | FNaN, _ | _, FNaN => false
  | FNum p, FNum q => Qle_bool p q
  | FNum _, FInf n => negb n
  | FInf n, FNum _ => n
  | FInf n, FInf m => n || negb m
  end.




(** ** The builtins [float], [int] and [str]

    Reading a number out of a string and printing a value are CPython's;
    they are taken as an interface. [str_to_float] and [str_to_int] return
    [None] where the builtin raises [ValueError]. *)

Class PyBuiltins : Type := {
  str_to_float : string -> option pyfloat;
  str_to_int : string -> option Z;
  py_str : value -> string
}.

Section Builtins.
Context `{!PyBuiltins}.

(** [float(v)]. An integer too large for a double overflows. *)
Definition py_float (v : value) : result pyfloat :=
  match v with
  | VNone => Raise TypeError
  | VBool b => Ok (FNum (if b then 1 else 0)%Q)
  | VInt z =>
      if (2 ^ 1024 - 2 ^ 970 <=? Z.abs z)%Z then Raise OverflowError
      else Ok (FNum (inject_Z z))
  | VFloat f => Ok f
  | VStr s =>
      match str_to_float s with
      | Some f => Ok f
      | None => Raise (ValueError "could not convert string to float")
      end
  | VList _ | VDict _ => Raise TypeError
  end.

(** [int(v)]. A float is truncated towards zero. *)
Definition py_int (v : value) : result Z :=
  match v with
  | VNone => Raise TypeError
  | VBool b => Ok (if b then 1 else 0)%Z
  | VInt z => Ok z
  | VFloat (FNum q) => Ok (Z.quot (Qnum q) (Zpos (Qden q)))
  | VFloat (FInf _) => Raise OverflowError
  | VFloat FNaN => Raise (ValueError "cannot convert float NaN to integer")
  | VStr s =>
      match str_to_int s with
      | Some z => Ok z
      | None => Raise (ValueError "invalid literal for int()")
      end
  | VList _ | VDict _ => Raise TypeError
  end.
End Builtins.

(** A small instance on which examples run: it reads plain decimal
    integer literals with an optional sign, which both builtins accept, and
    prints integers, strings, [None] and booleans. *)
Definition digit_of (a : ascii) : option Z :=
  let n := Z.of_nat (nat_of_ascii a) in
  if (48 <=? n) && (n <=? 57) then Some (n - 48) else None.

Fixpoint parse_digits (acc : Z) (s : string) : option Z :=
  match s with
  | EmptyString => Some acc
  | String a s' =>
      match digit_of a with
      | Some d => parse_digits (10 * acc + d) s'
      | None => None
      end
  end.

Definition parse_decimal (s : string) : option Z :=
  match s with
  | EmptyString => None
  | String a s' =>
      if Ascii.eqb a "-" then
        match s' with
        | EmptyString => None
        | _ => Z.opp <$> parse_digits 0 s'
        end
      else if Ascii.eqb a "+" then
        match s' with
        | EmptyString => None
        | _ => parse_digits 0 s'
        end
      else parse_digits 0 s
  end.

Definition decimal_builtins : PyBuiltins := {|
  str_to_float := fun s => (fun z => FNum (inject_Z z)) <$> parse_decimal s;
  str_to_int := parse_decimal;
  py_str := fun v =>
    match v with
    | VNone => "None"
    | VBool true => "True"
    | VBool false => "False"
    | VInt z => pretty z
    | VStr s => s
    | VFloat (FInf false) => "inf"
    | VFloat (FInf true) => "-inf"
    | VFloat FNaN => "nan"
    | VFloat (FNum q) => pretty (Qnum q) +:+ "/" +:+ pretty (Zpos (Qden q))
    | VList _ => "[...]"
    | VDict _ => "{...}"
    end
|}.

(** ** tasks/frequency.py *)

Module Frequency.

Record t : Type := mk {
  _time_per_trigger : pyfloat;
  _reps : Z;
  _triggered : Z;
  _task : value;
  _last_check : Q
}.

(** [__init__(self, freq, reps, task)]; [now] is the reading of
    [time.time()]. *)
Definition __init__ (freq : pyfloat) (reps : Z) (task : value) (now : Q)
  : result t :=
  tpt ← float_div (FNum 3600) freq;
  Ok {| _time_per_trigger := tpt;
        _reps := reps;
        _triggered := 0;
        _task := task;
        _last_check := now |}.

Definition set_last_check (now : Q) (self : t) : t :=
  {| _time_per_trigger := _time_per_trigger self;
     _reps := _reps self;
     _triggered := _triggered self;
     _task := _task self;
     _last_check := now |}.

Definition set_triggered (n : Z) (self : t) : t :=
  {| _time_per_trigger := _time_per_trigger self;
     _reps := _reps self;
     _triggered := n;
     _task := _task self;
     _last_check := _last_check self |}.

(** Line 27: [slept / self._time_per_trigger]. *)
Definition trigger_probability (self : t) (now : Q) : result pyfloat :=
  let slept := (now - _last_check self)%Q in
  float_div (FNum slept) (_time_per_trigger self).

(** [__call__(self)]; [now] is [time.time()], [draw] is [random.random()].
    The object is mutated in place, so the state is returned also when the
    division raises; the second component is the outcome: the
    configurations handed to [api.new_task], or the exception of line 27.
    What [api.new_task] does with the configuration, which it may reject
    by raising after every write of the sample, is outside the model. *)
Definition __call__ (self : t) (now : Q) (draw : Q)
  : t * result (list value) :=
  let slept := (now - _last_check self)%Q in
  let self := set_last_check now self in
  match float_div (FNum slept) (_time_per_trigger self) with
  | Raise e => (self, Raise e)
  | Ok trigger_probability =>
      if float_lt (FNum draw) trigger_probability then
        let self := set_triggered (_triggered self + 1) self in
        (self, Ok [_task self])
      else (self, Ok [])
  end.

(** Whether an invocation fires: the test of line 28. *)
Definition fired (self : t) (now draw : Q) : bool :=
  match trigger_probability self now with
  | Ok p => float_lt (FNum draw) p
  | Raise _ => false
  end.

Definition cleanup (self : t) : t * unit := (self, tt).

Definition stop (self : t) : bool :=
  if (_reps self =? 0) || (_triggered self <? _reps self) then false
  else true.

Definition status (self : t) : string :=
  "Triggered " +:+ pretty (_triggered self) +:+ " times.".

(** The operations of the task contract, as the orchestrator calls them,
    and the state each leaves behind. *)
Inductive op : Type :=
| OpCall (now draw : Q)
| OpStop
| OpStatus
| OpCleanup.

Definition exec_op (o : op) (self : t) : t :=
  match o with
  | OpCall now draw => fst (__call__ self now draw)
  | OpStop => let _ := stop self in self
  | OpStatus => let _ := status self in self
  | OpCleanup => fst (cleanup self)
  end.

Definition exec_ops (os : list op) (self : t) : t :=
  fold_left (fun s o => exec_op o s) os self.

(** Sampling happens only while [stop()] is false: the orchestrator retires
    a task once [stop()] is true. *)
Fixpoint sampled_while_active (os : list op) (self : t) : bool :=
  match os with
  | [] => true
  | o :: os' =>
      match o with
      | OpCall _ _ => negb (stop self)
      | _ => true
      end && sampled_while_active os' (exec_op o self)
  end.

Definition op_allowed (o : op) (self : t) : Prop :=
  match o with
  | OpCall _ _ => stop self = false
  | _ => True
  end.

(** A draw of [random.random()] lies in [0, 1). *)
Definition is_draw (r : Q) : Prop := (0 <= r /\ r < 1)%Q.

(** [config(cls, conf_dict)]. An [except ValueError] clause replaces the
    message of a [ValueError] and lets every other exception through. *)
Definition param_missing (field : string) : string :=
  field +:+ " parameter missing from configuration".

Definition not_a_number (field given : string) : string :=
  "Given " +:+ field +:+ " value " +:+ given +:+
  " cannot be interpreted as a number.".

Definition invalid_input (field given : string) : string :=
  "Given " +:+ field +:+ " value " +:+ given +:+ ", which is not valid.".

Definition reraise_ValueError {A : Type} (msg : string) (r : result A)
  : result A :=
  match r with
  | Raise (ValueError _) => Raise (ValueError msg)
  | _ => r
  end.

Section Config.
Context `{!PyBuiltins}.

Definition config_frequency (conf_dict : gmap string value)
  : result pyfloat :=
  match conf_dict !! "frequency" with
  | None => Raise (KeyError (param_missing "frequency"))
  | Some freq0 =>
      freq ← reraise_ValueError (not_a_number "frequency" (py_str freq0))
               (py_float freq0);
      if float_le freq (FNum 0) then
        Raise (ValueError
                 (invalid_input "frequency"
                    (py_str (VFloat freq) +:+ " <= 0")))
      else Ok freq
  end.

Definition config_repetitions (conf_dict : gmap string value)
  : result Z :=
  match conf_dict !! "repetitions" with
  | None => Raise (KeyError (param_missing "repetitions"))
  | Some reps0 =>
      reps ← reraise_ValueError (not_a_number "repetitions" (py_str reps0))
               (py_int reps0);
      if (reps <? 0)%Z then
        Raise (ValueError
                 (invalid_input "repetitions"
                    (py_str (VInt reps) +:+ " <= 0")))
      else Ok reps
  end.

Definition config_task (conf_dict : gmap string value) : result value :=
  match conf_dict !! "task" with
  | None => Raise (KeyError (param_missing "task"))
  | Some task => Ok task
  end.

Definition config (conf_dict : gmap string value) (now : Q) : result t :=
  freq ← config_frequency conf_dict;
  reps ← config_repetitions conf_dict;
  task ← config_task conf_dict;
  __init__ freq reps task now.

(** What the configuration contract calls a usable field: present, read
    by the builtin, and in range. *)
Definition frequency_ok (conf_dict : gmap string value) : Prop :=
  exists (v : value) (f : pyfloat),
    conf_dict !! "frequency" = Some v
    /\ py_float v = Ok f /\ float_le f (FNum 0) = false.

Definition frequency_invalid (conf_dict : gmap string value) : Prop :=
  exists v : value,
    conf_dict !! "frequency" = Some v
    /\ (is_ValueError (py_float v) = true
        \/ exists f : pyfloat,
             py_float v = Ok f /\ float_le f (FNum 0) = true).

Definition repetitions_ok (conf_dict : gmap string value) : Prop :=
  exists (v : value) (n : Z),
    conf_dict !! "repetitions" = Some v
    /\ py_int v = Ok n /\ (0 <= n)%Z.

(** The first field that is not usable, in the order of the checks, is
    an absent one. *)
Definition first_failure_is_missing (conf_dict : gmap string value)
  : Prop :=
  conf_dict !! "frequency" = None
  \/ (frequency_ok conf_dict /\ conf_dict !! "repetitions" = None)
  \/ (frequency_ok conf_dict /\ repetitions_ok conf_dict
      /\ conf_dict !! "task" = None).

Definition repetitions_invalid (conf_dict : gmap string value) : Prop :=
  exists v : value,
    conf_dict !! "repetitions" = Some v
    /\ (is_ValueError (py_int v) = true
        \/ exists n : Z, py_int v = Ok n /\ (n < 0)%Z).
End Config.

(** The invariant of the data model. *)
Definition invariant (self : t) : Prop :=
  _reps self = 0 \/ _triggered self <= _reps self.

(** The number of sample invocations in a run. *)
Definition is_sample (o : op) : bool :=
  match o with
  | OpCall _ _ => true
  | _ => false
  end.

Definition samples (os : list op) : Z :=
  Z.of_nat (length (List.filter is_sample os)).

End Frequency.

(** ** tasks/iebrowser.py

    [IEManager] keeps its state in class attributes shared by every task;
    the consumer thread and the callers run interleaved. The embedding is a
    state machine over that shared state: an event is a call of the main
    thread or one step of a consumer thread. The calls come from one
    thread, the main thread of the simulator. One pass through the loop body
    is one step; leaving the loop and the lines of the reset that follows
    are separate steps, so a call can fall between them; and consumer
    steps can fall inside [IEManager()], between the start of the new
    thread and the first [put]. *)

Module IEManager.

Inductive action : Type :=
| _start_ie
| _visit_site (site : string).

(** An entry of the action queue: [(action, task_id, delay)]. *)
Definition request : Type := action * Z * Z.

(** Internet Explorer is driven through COM. What an action does to it is
    an interface: the new value of [_ie] and, when the action raises, the
    formatted traceback. So is the range of [time.sleep]: [sleep_fits]
    tells whether a delay that is not negative converts to the time type of
    the platform; [time.sleep] raises [OverflowError] when it does not. *)
Class Browser : Type := {
  ie : Type;
  run_action : action -> option ie -> option ie * option string;
  Busy : ie -> bool;
  sleep_fits : Z -> bool
}.

(** Where a consumer thread stands: at the test of its [while] loop, or
    past the loop, before line 71, line 72 or line 74. *)
Inductive pc : Type :=
| InLoop
| Line71
| Line72
| Line74.



Section Manager.
Context `{!Browser}.

(** The class attributes, the live consumer threads, and what the outside
    observes: every request put on the current queue object since it was
    created, the actions run, the calls of [api.add_feedback] and of
    [time.sleep], and the number of completed teardowns. *)
Record state : Type := mkState {
  _action_queue : option (list request);
  _ie : option ie;
  _persist : bool;
  threads : list pc;
  puts : list request;
  executed : list request;
  feedback : list (Z * string);
  sleeps : list Z;
  teardowns : nat
}.

Definition initial : state := mkState None None true [] [] [] [] [] 0.

Definition with_queue (q : option (list request)) (st : state) : state :=
  mkState q (_ie st) (_persist st) (threads st) (puts st) (executed st)
    (feedback st) (sleeps st) (teardowns st).

Definition with_ie (h : option ie) (st : state) : state :=
  mkState (_action_queue st) h (_persist st) (threads st) (puts st)
    (executed st) (feedback st) (sleeps st) (teardowns st).

Definition with_persist (b : bool) (st : state) : state :=
  mkState (_action_queue st) (_ie st) b (threads st) (puts st) (executed st)
    (feedback st) (sleeps st) (teardowns st).

Definition with_threads (ts : list pc) (st : state) : state :=
  mkState (_action_queue st) (_ie st) (_persist st) ts (puts st)
    (executed st) (feedback st) (sleeps st) (teardowns st).

Definition with_puts (rs : list request) (st : state) : state :=
  mkState (_action_queue st) (_ie st) (_persist st) (threads st) rs
    (executed st) (feedback st) (sleeps st) (teardowns st).

Definition log_executed (r : request) (st : state) : state :=
  mkState (_action_queue st) (_ie st) (_persist st) (threads st) (puts st)
    (executed st ++ [r]) (feedback st) (sleeps st) (teardowns st).

Definition add_feedback (task_id : Z) (message : string) (st : state)
  : state :=
  mkState (_action_queue st) (_ie st) (_persist st) (threads st) (puts st)
    (executed st) (feedback st ++ [(task_id, message)]) (sleeps st)
    (teardowns st).

Definition log_sleep (delay : Z) (st : state) : state :=
  mkState (_action_queue st) (_ie st) (_persist st) (threads st) (puts st)
    (executed st) (feedback st) (sleeps st ++ [delay]) (teardowns st).

Definition count_teardown (st : state) : state :=
  mkState (_action_queue st) (_ie st) (_persist st) (threads st) (puts st)
    (executed st) (feedback st) (sleeps st) (S (teardowns st)).

(** [get(site, task_id, delay)]: [None] has no [put]. *)
Definition get (site : string) (task_id delay : Z) (st : state)
  : result state :=
  match _action_queue st with
  | None => Raise AttributeError
  | Some q =>
      Ok (with_queue (Some (q ++ [(_visit_site site, task_id, delay)]))
            (with_puts (puts st ++ [(_visit_site site, task_id, delay)]) st))
  end.

Definition close_browser (st : state) : state := with_persist false st.

Definition status (st : state) : string :=
  match _ie st with
  | None => "IE has not yet been fully started."
  | Some h =>
      if Busy h then "IE reports that it is loading a web page."
      else "IE is idle."
  end.

Definition end_thread (i : nat) (st : state) : state :=
  with_threads (delete i (threads st)) st.

Definition set_pc (i : nat) (p : pc) (st : state) : state :=
  with_threads (<[i := p]> (threads st)) st.

(** [time.sleep(delay)] raises: [ValueError] on a negative delay,
    [OverflowError] on one that is out of range. *)
Definition sleep_raises (delay : Z) : bool :=
  (delay <? 0) || negb (sleep_fits delay).

(** One pass through the body of the [while] loop by thread [i]. An
    exception that the body does not catch ends the thread: the loop test
    or [get] on a queue that is [None], and [time.sleep] on a delay that
    it rejects. *)
Definition loop_iteration (i : nat) (st : state) : state :=
  match _action_queue st with
  | None => end_thread i st
  | Some [] => if _persist st then st else set_pc i Line71 st
  | Some ((act, task_id, delay) :: q) =>
      let st := with_queue (Some q) st in
      let st := log_executed (act, task_id, delay) st in
      let r := run_action act (_ie st) in
      let st := with_ie (fst r) st in
      let st := match snd r with
                | Some traceback => add_feedback task_id traceback st
                | None => st
                end in
      if sleep_raises delay then end_thread i st else log_sleep delay st
  end.

(** One step of thread [i]: a pass through the loop, or one of lines 71,
    72 and 74 to 85 (the attempt to quit, whose failures are swallowed, and
    [_ie = None]). *)
Definition step_thread (i : nat) (st : state) : state :=
  match threads st !! i with
  | Some InLoop => loop_iteration i st
  | Some Line71 => set_pc i Line72 (with_queue None st)
  | Some Line72 => set_pc i Line74 (with_persist true st)
  | Some Line74 => end_thread i (with_ie None (count_teardown st))
  | None => st
  end.

(** The consumer steps [mid], by thread index, in order. *)
Definition steps (mid : list nat) (st : state) : state :=
  fold_left (fun s i => step_thread i s) mid st.

(** [IEManager()]. With a queue in place nothing happens. Otherwise line
    42 creates the queue and line 46 starts the consumer; the consumer
    steps [mid] fall before line 48, whose [put] raises when the consumer
    has reset the queue meanwhile. The state is returned also when the call
    raises. *)
Definition __new__ (mid : list nat) (st : state) : state * result unit :=
  match _action_queue st with
  | Some _ => (st, Ok tt)
  | None =>
      let st := with_queue (Some [])
                  (with_puts [] (with_threads (threads st ++ [InLoop]) st)) in
      let st := steps mid st in
      match _action_queue st with
      | None => (st, Raise AttributeError)
      | Some q =>
          (with_queue (Some (q ++ [(_start_ie, 0, 10)]))
             (with_puts (puts st ++ [(_start_ie, 0, 10)]) st),
           Ok tt)
      end
  end.

(** A call of the main thread, with the consumer steps that fall inside a
    construction, or one step of a consumer. *)
Inductive event : Type :=
| ENew (mid : list nat)
| EGet (site : string) (task_id delay : Z)
| EClose
| EStep (i : nat).

Definition run_event (e : event) (st : state) : state :=
  match e with
  | ENew mid => fst (__new__ mid st)
  | EGet site task_id delay =>
      match get site task_id delay st with
      | Ok st' => st'
      | Raise _ => st
      end
  | EClose => close_browser st
  | EStep i => step_thread i st
  end.

Definition run (es : list event) (st : state) : state :=
  fold_left (fun s e => run_event e s) es st.

(** Thread [i] left alone for [n] steps. *)
Definition consume (i n : nat) (st : state) : state :=
  run (replicate n (EStep i)) st.



(** The events in which no consumer takes a step: the calls of the main
    thread alone. The shutdown requests among them. *)
Definition is_call (e : event) : bool :=
  match e with
  | EStep _ => false
  | ENew mid => match mid with [] => true | _ => false end
  | _ => true
  end.

Definition is_close (e : event) : bool :=
  match e with
  | EClose => true
  | _ => false
  end.

(** [time.sleep] accepts the delay of the request. *)
Definition delay_ok (r : request) : Prop := sleep_raises (snd r) = false.





End Manager.

(** A browser on which examples run: the handle counts the pages visited,
    and visiting the empty address, or visiting before the browser is
    started, raises. *)
Definition counting_browser : Browser := {|
  ie := nat;
  run_action := fun act h =>
    match act, h with
    | _start_ie, _ => (Some 0%nat, None)
    | _visit_site site, Some n =>
        if String.eqb site "" then (Some n, Some "Traceback: Navigate")
        else (Some (S n), None)
    | _visit_site _, None => (None, Some "Traceback: AttributeError")
    end;
  Busy := fun _ => false;
  sleep_fits := fun delay => negb (4294967 <? delay)
|}.

End IEManager.

Module IEBrowser.
Import IEManager.

Section Task.
Context `{!Browser}.

(** The fields [IEBrowser] adds to its base class; [_driver] is the class
    [IEManager] itself. *)
Record t : Type := mk { _close : value }.

(** [__init__(self, config)]. [platform_system] is the answer of
    [platform.system()]; [super_init] is the outcome of
    [browser.Browser.__init__], a class of tasks/browser.py; [mid] are the
    consumer steps that fall inside [IEManager()]. *)
Definition __init__ (platform_system : string) (super_init : result unit)
    (config : gmap string value) (mid : list nat) (st : state)
  : result t * state :=
  if negb (String.eqb platform_system "Windows") then
    (Raise (OSError "This task is only compatible with Windows."), st)
  else
    match super_init with
    | Raise e => (Raise e, st)
    | Ok _ =>
        match config !! "close_browser" with
        | None => (Raise (KeyError "close_browser"), st)
        | Some c =>
            match __new__ mid st with
            | (st', Ok _) => (Ok {| _close := c |}, st')
            | (st', Raise e) => (Raise e, st')
            end
        end
    end.

End Task.
End IEBrowser.

(** * Properties *)

(** ** The stochastic trigger *)

Module FrequencyFacts.
Import Frequency.

Lemma Qltb_lt (a b : Q) : Qltb a b = true <-> (a < b)%Q.
Proof.
  unfold Qltb. rewrite negb_true_iff. split.
  - intros H. apply Qnot_le_lt. intros Hle.
    apply Qle_bool_iff in Hle. congruence.
  - intros H. destruct (Qle_bool b a) eqn:E; [|reflexivity].
    apply Qle_bool_iff in E. exfalso. exact (Qlt_not_le _ _ H E).
Qed.

Lemma Qltb_ge (a b : Q) : Qltb a b = false <-> (b <= a)%Q.
Proof.
  unfold Qltb. rewrite negb_false_iff. apply Qle_bool_iff.
Qed.

Lemma Qis_zero_false_pos (q : Q) : (0 < q)%Q -> Qis_zero q = false.
Proof.
  destruct q as [n d]. unfold Qlt, Qis_zero. simpl. intros H.
  apply Z.eqb_neq. lia.
Qed.

(** Sampling, and every other operation, leaves the configured fields
    alone. *)
Lemma exec_op_frame (o : op) (self : t) :
  _reps (exec_op o self) = _reps self
  /\ _time_per_trigger (exec_op o self) = _time_per_trigger self
  /\ _task (exec_op o self) = _task self.
Proof.
  destruct o as [now draw| | |]; simpl; auto.
  unfold __call__. cbv zeta.
  destruct (float_div _ _) as [p|e]; [|simpl; auto].
  destruct (float_lt _ _); simpl; auto.
Qed.

Lemma exec_ops_reps (os : list op) (self : t) :
  _reps (exec_ops os self) = _reps self.
Proof.
  unfold exec_ops. revert self.
  induction os as [|o os IH]; intros self; simpl; [reflexivity|].
  rewrite IH. apply exec_op_frame.
Qed.

Lemma stop_true_iff (self : t) :
  stop self = true <-> _reps self <> 0 /\ _triggered self >= _reps self.
Proof.
  unfold stop.
  destruct (Z.eqb_spec (_reps self) 0) as [E|E]; simpl.
  - split; [discriminate | tauto].
  - destruct (Z.ltb_spec (_triggered self) (_reps self)); split;
      try discriminate; try reflexivity; intros; lia.
Qed.

(** C1. [stop()] is true exactly when the trigger is bounded
    ([_reps <> 0]) and has fired at least [_reps] times, and false
    otherwise; a trigger built with 5 repetitions answers false while it has
    fired fewer than 5 times and true once it has fired 5 times, whatever
    operations were run on it. *)
Theorem stop_spec :
  (forall self : t,
      stop self = true <-> _reps self <> 0 /\ _triggered self >= _reps self)
  /\ (forall self : t,
      stop self = false <->
      ~ (_reps self <> 0 /\ _triggered self >= _reps self))
  /\ (forall (freq : pyfloat) (task : value) (now : Q) (self0 : t)
             (os : list op),
      __init__ freq 5 task now = Ok self0 ->
      let self := exec_ops os self0 in
      (_triggered self < 5 -> stop self = false)
      /\ (_triggered self = 5 -> stop self = true)).
Proof.
  split; [exact stop_true_iff|]. split.
  - intros self. rewrite <- stop_true_iff.
    destruct (stop self); split; congruence.
  - intros freq task now self0 os Hinit self.
    assert (Hreps : _reps self = 5).
    { unfold self. rewrite exec_ops_reps.
      unfold __init__ in Hinit.
      destruct (float_div (FNum 3600) freq); simpl in Hinit;
        [|discriminate].
      injection Hinit as <-. reflexivity. }
    split; intros H.
    + destruct (stop self) eqn:E; [|reflexivity].
      apply stop_true_iff in E. lia.
    + apply stop_true_iff. lia.
Qed.

Lemma stop_spec_witness :
  let self := exec_ops [OpCall 1 0; OpStop; OpCall 2 (1 # 2)]
                (mk (FNum (3600 / 3600)) 5 0 VNone 0) in
  (_triggered self < 5 -> stop self = false)
  /\ (_triggered self = 5 -> stop self = true).
Proof.
  apply (proj2 (proj2 stop_spec) (FNum 3600) VNone 0%Q).
  reflexivity.
Defined.

(** *** C2: the fire probability *)







(** *** C5: what a sample writes *)

(** The claim fails as stated: a sample that does not fire still moves
    [_last_check] to the current time. *)
Lemma unfired_sample_moves_last_check :
  let self := mk (FNum 3600) 0 0 VNone 0 in
  fired self 1 (1 # 2) = false
  /\ _last_check self = 0%Q
  /\ _last_check (fst (__call__ self 1 (1 # 2))) = 1%Q
  /\ _last_check (fst (__call__ self 1 (1 # 2))) <> _last_check self.
Proof. repeat split. discriminate. Qed.

Lemma call_effect (self : t) (now draw : Q) :
  let self' := fst (__call__ self now draw) in
  let out := snd (__call__ self now draw) in
  _last_check self' = now
  /\ _triggered self'
     = (if fired self now draw then _triggered self + 1 else _triggered self)
  /\ _time_per_trigger self' = _time_per_trigger self
  /\ _reps self' = _reps self
  /\ _task self' = _task self
  /\ match trigger_probability self now with
     | Ok _ => out = Ok (if fired self now draw then [_task self] else [])
     | Raise e => out = Raise e
     end.
Proof.
  unfold __call__, fired, trigger_probability. cbv zeta.
  cbn [set_last_check _time_per_trigger _last_check].
  destruct (float_div _ _) as [p|e]; [|cbn; auto 10].
  destruct (float_lt _ _); cbn; auto 10.
Qed.

(** C5 (amended). Every sample sets [_last_check] to the current time,
    whether it fires or not; [_triggered] grows by one when the sample fires
    and is unchanged otherwise; no other field is written; and when the
    probability can be computed, [api.new_task] receives the stored nested
    configuration exactly when the sample fires. *)
Theorem call_frame (self : t) (now draw : Q) :
  let self' := fst (__call__ self now draw) in
  let out := snd (__call__ self now draw) in
  _last_check self' = now
  /\ _triggered self'
     = (if fired self now draw then _triggered self + 1 else _triggered self)
  /\ _time_per_trigger self' = _time_per_trigger self
  /\ _reps self' = _reps self
  /\ _task self' = _task self
  /\ match trigger_probability self now with
     | Ok _ => out = Ok (if fired self now draw then [_task self] else [])
     | Raise e => out = Raise e
     end.
Proof. exact (call_effect self now draw). Qed.

(** *** C4: the configuration contract *)

Ltac config_cases :=
  simpl; repeat split; intros;
  repeat match goal with
    | H : _ \/ _ |- _ => destruct H
    | H : _ /\ _ |- _ => destruct H
    | H : is_Some None |- _ => destruct H; discriminate
    | H : Ok _ = Ok _ |- _ => injection H as H; subst
    end;
  try discriminate; try congruence; try tauto; auto.

Section ConfigFacts.
Context `{!PyBuiltins}.

Lemma reraise_not_ValueError {A : Type} (msg : string) (r : result A) :
  is_ValueError r = false -> reraise_ValueError msg r = r.
Proof. destruct r as [a|[]]; simpl; congruence. Qed.

Lemma init_ok (f : pyfloat) (reps : Z) (task : value) (now : Q) :
  float_le f (FNum 0) = false ->
  exists self : t, __init__ f reps task now = Ok self /\ _reps self = reps.
Proof.
  intros Hf. unfold __init__.
  destruct f as [q|n|]; simpl in *.
  - assert (Hq : (0 < q)%Q).
    { apply Qnot_le_lt. intros Hle. apply Qle_bool_iff in Hle.
      congruence. }
    rewrite (Qis_zero_false_pos q Hq). simpl. eauto.
  - eauto.
  - eauto.
Qed.

Lemma py_float_not_KeyError (v : value) (msg : string) :
  py_float v <> Raise (KeyError msg).
Proof.
  destruct v as [|b|z|f|s|l|d]; simpl; try discriminate.
  - destruct (_ <=? _); discriminate.
  - destruct (str_to_float s); discriminate.
Qed.

Lemma py_int_not_KeyError (v : value) (msg : string) :
  py_int v <> Raise (KeyError msg).
Proof.
  destruct v as [|b|z|f|s|l|d]; simpl; try discriminate.
  - destruct f as [q|n|]; discriminate.
  - destruct (str_to_int s); discriminate.
Qed.

Lemma config_frequency_cases (conf : gmap string value) :
  match config_frequency conf with
  | Ok f => exists v, conf !! "frequency" = Some v /\ py_float v = Ok f
                      /\ float_le f (FNum 0) = false
  | Raise (KeyError _) => conf !! "frequency" = None
  | Raise (ValueError _) => frequency_invalid conf
  | Raise e => exists v, conf !! "frequency" = Some v
                         /\ py_float v = Raise e
  end.
Proof.
  unfold config_frequency, frequency_invalid.
  destruct (conf !! "frequency") as [v|] eqn:Ev; [|reflexivity].
  destruct (py_float v) as [f|e] eqn:Ef; simpl.
  - destruct (float_le f (FNum 0)) eqn:El; eauto 10.
  - destruct e; simpl;
      try (exists v; split; [reflexivity | exact Ef]).
    + exfalso. exact (py_float_not_KeyError _ _ Ef).
    + exists v. split; [reflexivity|]. left. rewrite Ef. reflexivity.
Qed.

Lemma config_repetitions_cases (conf : gmap string value) :
  match config_repetitions conf with
  | Ok n => exists v, conf !! "repetitions" = Some v /\ py_int v = Ok n
                      /\ (0 <= n)%Z
  | Raise (KeyError _) => conf !! "repetitions" = None
  | Raise (ValueError _) => repetitions_invalid conf
  | Raise e => exists v, conf !! "repetitions" = Some v
                         /\ py_int v = Raise e
  end.
Proof.
  unfold config_repetitions, repetitions_invalid.
  destruct (conf !! "repetitions") as [v|] eqn:Ev; [|reflexivity].
  destruct (py_int v) as [n|e] eqn:En; simpl.
  - destruct (Z.ltb_spec n 0); eauto 10.
  - destruct e; simpl;
      try (exists v; split; [reflexivity | exact En]).
    + exfalso. exact (py_int_not_KeyError _ _ En).
    + exists v. split; [reflexivity|]. left. rewrite En. reflexivity.
Qed.

Lemma frequency_ok_iff (conf : gmap string value) :
  frequency_ok conf <-> is_Ok (config_frequency conf) = true.
Proof.
  split.
  - intros (v & f & Hv & Hp & Hl). unfold config_frequency.
    rewrite Hv, Hp. simpl. rewrite Hl. reflexivity.
  - intros Hb. pose proof (config_frequency_cases conf) as HF.
    destruct (config_frequency conf) as [f|e]; [|discriminate].
    destruct HF as (v & Hv & Hp & Hl). exists v, f. auto.
Qed.

Lemma frequency_invalid_iff (conf : gmap string value) :
  frequency_invalid conf <-> is_ValueError (config_frequency conf) = true.
Proof.
  split.
  - intros (v & Hv & [Hve | (f & Hp & Hl)]); unfold config_frequency;
      rewrite Hv.
    + destruct (py_float v) as [f|[]]; simpl in Hve; try discriminate.
      reflexivity.
    + rewrite Hp. simpl. rewrite Hl. reflexivity.
  - intros Hb. pose proof (config_frequency_cases conf) as HF.
    destruct (config_frequency conf) as [f|[]]; try discriminate.
    exact HF.
Qed.

Lemma frequency_missing_iff (conf : gmap string value) :
  conf !! "frequency" = None <-> is_KeyError (config_frequency conf) = true.
Proof.
  split.
  - intros Hv. unfold config_frequency. rewrite Hv. reflexivity.
  - intros Hb. pose proof (config_frequency_cases conf) as HF.
    destruct (config_frequency conf) as [f|[]]; try discriminate.
    exact HF.
Qed.

Lemma repetitions_ok_iff (conf : gmap string value) :
  repetitions_ok conf <-> is_Ok (config_repetitions conf) = true.
Proof.
  split.
  - intros (v & n & Hv & Hp & Hl). unfold config_repetitions.
    rewrite Hv, Hp. simpl.
    destruct (Z.ltb_spec n 0); [lia | reflexivity].
  - intros Hb. pose proof (config_repetitions_cases conf) as HR.
    destruct (config_repetitions conf) as [n|e]; [|discriminate].
    destruct HR as (v & Hv & Hp & Hl). exists v, n. auto.
Qed.

Lemma repetitions_invalid_iff (conf : gmap string value) :
  repetitions_invalid conf
  <-> is_ValueError (config_repetitions conf) = true.
Proof.
  split.
  - intros (v & Hv & [Hve | (n & Hp & Hl)]); unfold config_repetitions;
      rewrite Hv.
    + destruct (py_int v) as [n|[]]; simpl in Hve; try discriminate.
      reflexivity.
    + rewrite Hp. simpl.
      destruct (Z.ltb_spec n 0); [reflexivity | lia].
  - intros Hb. pose proof (config_repetitions_cases conf) as HR.
    destruct (config_repetitions conf) as [n|[]]; try discriminate.
    exact HR.
Qed.

Lemma repetitions_missing_iff (conf : gmap string value) :
  conf !! "repetitions" = None
  <-> is_KeyError (config_repetitions conf) = true.
Proof.
  split.
  - intros Hv. unfold config_repetitions. rewrite Hv. reflexivity.
  - intros Hb. pose proof (config_repetitions_cases conf) as HR.
    destruct (config_repetitions conf) as [n|[]]; try discriminate.
    exact HR.
Qed.

(** C4 (amended). [config] examines [frequency], then [repetitions], then
    [task], and stops at the first field that is not usable. It raises
    [KeyError] exactly when that first field is absent (so some field is
    absent whenever it raises [KeyError]); it raises [ValueError] exactly
    when that first field is present and either [float]/[int] rejects it
    with [ValueError] or it reads as a float [<= 0] (frequency) or an
    integer [< 0] (repetitions); it returns an instance exactly when all
    three fields are usable, and that instance is the one [__init__]
    builds from the converted values; in every other case no instance
    exists. *)
Theorem config_spec (conf : gmap string value) (now : Q) :
  (is_KeyError (config conf now) = true <-> first_failure_is_missing conf)
  /\ (is_ValueError (config conf now) = true <->
      frequency_invalid conf
      \/ (frequency_ok conf /\ repetitions_invalid conf))
  /\ (is_Ok (config conf now) = true <->
      frequency_ok conf /\ repetitions_ok conf
      /\ is_Some (conf !! "task"))
  /\ (forall self : t, config conf now = Ok self ->
      exists (v : value) (f : pyfloat) (w : value) (n : Z) (task : value),
        conf !! "frequency" = Some v /\ py_float v = Ok f
        /\ conf !! "repetitions" = Some w /\ py_int w = Ok n
        /\ conf !! "task" = Some task
        /\ __init__ f n task now = Ok self)
  /\ (is_KeyError (config conf now) = true ->
      conf !! "frequency" = None \/ conf !! "repetitions" = None
      \/ conf !! "task" = None).
Proof.
  unfold first_failure_is_missing.
  rewrite frequency_ok_iff, frequency_invalid_iff, frequency_missing_iff,
    repetitions_ok_iff, repetitions_invalid_iff, repetitions_missing_iff.
  pose proof (config_frequency_cases conf) as HF.
  pose proof (config_repetitions_cases conf) as HR.
  unfold config, config_task.
  destruct (config_frequency conf) as [f|e1]; simpl.
  - destruct HF as (v & Hv & Hpf & Hle).
    destruct (config_repetitions conf) as [n|e2]; simpl.
    + destruct HR as (w & Hw & Hpi & Hn).
      destruct (conf !! "task") as [task|] eqn:Et; simpl.
      * destruct (init_ok f n task now Hle) as (self & Hinit & _).
        rewrite Hinit. simpl. config_cases.
        exists v, f, w, n, task. repeat split; auto.
      * config_cases.
    + clear HR. destruct e2; config_cases.
  - clear HF. destruct e1; config_cases.
Qed.

End ConfigFacts.

(** The claim fails as stated: with [frequency = 0] and no other field,
    [repetitions] and [task] are absent and yet the error is [ValueError];
    [frequency = None] is not a positive number and the error is
    [TypeError]; [repetitions = 2.5] is not an integer and is accepted as
    2. *)
Lemma config_first_failure_wins :
  let conf1 : gmap string value := {[ "frequency" := VInt 0 ]} in
  let conf2 : gmap string value :=
    <[ "frequency" := VNone ]> (<[ "repetitions" := VInt 1 ]>
      {[ "task" := VNone ]}) in
  let conf3 : gmap string value :=
    <[ "frequency" := VInt 1 ]> (<[ "repetitions" := VFloat (FNum (5 # 2)) ]>
      {[ "task" := VNone ]}) in
  (conf1 !! "repetitions" = None /\ conf1 !! "task" = None
   /\ is_KeyError (@config decimal_builtins conf1 0) = false
   /\ is_ValueError (@config decimal_builtins conf1 0) = true)
  /\ (conf2 !! "frequency" = Some VNone
      /\ @config decimal_builtins conf2 0 = Raise TypeError)
  /\ (conf3 !! "repetitions" = Some (VFloat (FNum (5 # 2)))
      /\ _reps <$> @config decimal_builtins conf3 0 = Ok 2).
Proof. vm_compute. repeat split. Qed.

Lemma config_spec_witness :
  let conf : gmap string value :=
    <[ "frequency" := VStr "3600" ]> (<[ "repetitions" := VInt 5 ]>
      {[ "task" := VNone ]}) in
  exists (v : value) (f : pyfloat) (w : value) (n : Z) (task : value),
    conf !! "frequency" = Some v /\ @py_float decimal_builtins v = Ok f
    /\ conf !! "repetitions" = Some w /\ @py_int decimal_builtins w = Ok n
    /\ conf !! "task" = Some task
    /\ __init__ f n task 0 = Ok (mk (FNum (3600 / 3600)) 5 0 VNone 0).
Proof.
  intros conf.
  apply (proj1 (proj2 (proj2 (proj2
           (@config_spec decimal_builtins conf 0%Q))))).
  reflexivity.
Defined.

(** *** C3: the bound on the number of firings *)

(** The claim fails as stated: sampling does not look at [_reps], so a
    trigger that is sampled after it reached its bound fires again. *)
Lemma invariant_broken_by_sampling :
  let self0 := mk (FNum (3600 / 3600)) 1 0 VNone 0 in
  let self := exec_ops [OpCall 1 0; OpCall 2 0] self0 in
  __init__ (FNum 3600) 1 VNone 0 = Ok self0
  /\ invariant self0
  /\ invariant (exec_ops [OpCall 1 0] self0)
  /\ _reps self = 1 /\ _triggered self = 2
  /\ ~ invariant self.
Proof.
  repeat split; try (right; vm_compute; discriminate).
  intros [H|H]; vm_compute in H; [discriminate | apply H; reflexivity].
Qed.

Lemma init_invariant (freq : pyfloat) (reps : Z) (task : value) (now0 : Q)
    (self0 : t) :
  0 <= reps ->
  __init__ freq reps task now0 = Ok self0 ->
  invariant self0.
Proof.
  intros Hreps Hinit. unfold __init__ in Hinit.
  destruct (float_div (FNum 3600) freq); simpl in Hinit; [|discriminate].
  injection Hinit as <-. right. simpl. assumption.
Qed.

Lemma exec_op_invariant (o : op) (self : t) :
  invariant self -> op_allowed o self -> invariant (exec_op o self).
Proof.
  intros Hinv Hok.
  destruct o as [now draw| | |]; simpl in *; try assumption.
  destruct (call_effect self now draw) as (_ & Ht & _ & Hr & _).
  unfold invariant. rewrite Hr, Ht.
  destruct (Z.eq_dec (_reps self) 0) as [E|E]; [left; assumption|right].
  unfold stop in Hok.
  destruct (Z.eqb_spec (_reps self) 0); [contradiction|].
  destruct (Z.ltb_spec (_triggered self) (_reps self));
    simpl in Hok; [|discriminate].
  destruct (fired self now draw); lia.
Qed.

Lemma exec_ops_invariant (os : list op) (self : t) :
  invariant self ->
  sampled_while_active os self = true ->
  invariant (exec_ops os self).
Proof.
  unfold exec_ops. revert self.
  induction os as [|o os IH]; intros self Hinv Hact; simpl in *;
    [assumption|].
  apply andb_true_iff in Hact as [Ho Hrest].
  apply IH; [|assumption].
  apply exec_op_invariant; [assumption|].
  destruct o; simpl; try exact I.
  apply negb_true_iff. assumption.
Qed.

(** C3 (amended). For a trigger built with [reps >= 0] the bound
    [_reps = 0 \/ _triggered <= _reps] holds after construction; [stop],
    [status] and [cleanup] leave the state as it is; a sample preserves the
    bound when [stop()] was false before it; so the bound holds along every
    run in which the trigger is sampled only while [stop()] is false. *)
Theorem invariant_while_active
    (freq : pyfloat) (reps : Z) (task : value) (now0 : Q) (self0 : t)
    (os : list op) :
  0 <= reps ->
  __init__ freq reps task now0 = Ok self0 ->
  sampled_while_active os self0 = true ->
  invariant self0
  /\ invariant (exec_ops os self0)
  /\ (forall self : t,
        exec_op OpStop self = self /\ exec_op OpStatus self = self
        /\ exec_op OpCleanup self = self)
  /\ (forall (self : t) (now draw : Q),
        invariant self -> stop self = false ->
        invariant (exec_op (OpCall now draw) self)).
Proof.
  intros Hreps Hinit Hact.
  pose proof (init_invariant _ _ _ _ _ Hreps Hinit) as Hinv0.
  split; [assumption|].
  split; [apply exec_ops_invariant; assumption|].
  split; [intros self; repeat split|].
  intros self now draw Hinv Hstop.
  apply (exec_op_invariant (OpCall now draw)); assumption.
Qed.

Lemma invariant_while_active_witness :
  let self0 := mk (FNum (3600 / 3600)) 1 0 VNone 0 in
  let os := [OpStop; OpCall 1 0; OpStatus; OpStop; OpCleanup] in
  _triggered (exec_ops os self0) = 1
  /\ invariant (exec_ops os self0).
Proof.
  split; [reflexivity|].
  destruct (invariant_while_active (FNum 3600) 1 VNone 0
              (mk (FNum (3600 / 3600)) 1 0 VNone 0)
              [OpStop; OpCall 1 0; OpStatus; OpStop; OpCleanup])
    as (_ & H & _); [lia | reflexivity | reflexivity | exact H].
Defined.

End FrequencyFacts.

(** ** The shared Internet Explorer executor *)

Module IEManagerFacts.
Import IEManager.




Section ManagerFacts.
Context `{!Browser}.

(** A pass through the loop that finds a request. *)
Lemma loop_iteration_head (i : nat) (st : state) (act : action)
    (task_id delay : Z) (q : list request) :
  _action_queue st = Some ((act, task_id, delay) :: q) ->
  loop_iteration i st =
    mkState (Some q) (fst (run_action act (_ie st))) (_persist st)
      (if sleep_raises delay then delete i (threads st) else threads st)
      (puts st) (executed st ++ [(act, task_id, delay)])
      (feedback st ++
         match snd (run_action act (_ie st)) with
         | Some traceback => [(task_id, traceback)]
         | None => []
         end)
      (if sleep_raises delay then sleeps st else sleeps st ++ [delay])
      (teardowns st).
Proof.
  intros Hq. unfold loop_iteration. rewrite Hq. cbv zeta.
  destruct st as [q0 h p ts pu ex fb sl td]; simpl in *.
  destruct (run_action act h) as [h' [tb|]]; simpl;
    destruct (sleep_raises delay); simpl; rewrite ?app_nil_r; reflexivity.
Qed.






(** The outcomes of [IEManager()]. *)
Lemma new_outcome (mid : list nat) (st : state) :
  match snd (__new__ mid st) with
  | Ok _ => is_Some (_action_queue (fst (__new__ mid st)))
  | Raise e =>
      e = AttributeError /\ _action_queue st = None
      /\ _action_queue (fst (__new__ mid st)) = None
  end.
Proof.
  unfold __new__. destruct (_action_queue st) eqn:Hq; simpl; [eauto|].
  match goal with |- context [steps mid ?s] =>
    destruct (_action_queue (steps mid s)) eqn:Hs end; simpl; eauto.
Qed.







Lemma consume_S (i n : nat) (st : state) :
  consume i (S n) st = consume i n (step_thread i st).
Proof. reflexivity. Qed.

Lemma consume_add (i n m : nat) (st : state) :
  consume i (n + m) st = consume i m (consume i n st).
Proof.
  unfold consume, run. rewrite replicate_add, fold_left_app. reflexivity.
Qed.

Lemma consume_no_thread (i n : nat) (st : state) :
  threads st !! i = None -> consume i n st = st.
Proof.
  intros Hi. induction n as [|n IH]; [reflexivity|].
  rewrite consume_S. unfold step_thread. rewrite Hi. exact IH.
Qed.

(** A consumer that finds its queue empty while [_persist] is true stays
    where it is. *)
Lemma steps_idle (mid : list nat) (st : state) :
  threads st = [InLoop] ->
  _action_queue st = Some [] ->
  _persist st = true ->
  steps mid st = st.
Proof.
  intros Ht Hq Hp. unfold steps.
  induction mid as [|i mid IH]; simpl; [reflexivity|].
  assert (Hstep : step_thread i st = st).
  { unfold step_thread. rewrite Ht.
    destruct i as [|i]; simpl; [|reflexivity].
    unfold loop_iteration. rewrite Hq, Hp. reflexivity. }
  rewrite Hstep. exact IH.
Qed.

(** A step of a thread in its loop that finds a request with a delay that
    [time.sleep] accepts. *)
Lemma step_head (i : nat) (st : state) (act : action) (task_id delay : Z)
    (q : list request) :
  threads st !! i = Some InLoop ->
  _action_queue st = Some ((act, task_id, delay) :: q) ->
  sleep_raises delay = false ->
  step_thread i st =
    mkState (Some q) (fst (run_action act (_ie st))) (_persist st)
      (threads st) (puts st) (executed st ++ [(act, task_id, delay)])
      (feedback st ++
         match snd (run_action act (_ie st)) with
         | Some traceback => [(task_id, traceback)]
         | None => []
         end)
      (sleeps st ++ [delay]) (teardowns st).
Proof.
  intros Hi Hq Hd. unfold step_thread. rewrite Hi.
  rewrite (loop_iteration_head i st act task_id delay q Hq), Hd.
  reflexivity.
Qed.

(** The consumer works through the head of its queue. *)
Lemma consume_drain (i : nat) (q rest : list request) (st : state) :
  threads st !! i = Some InLoop ->
  _action_queue st = Some (q ++ rest) ->
  Forall delay_ok q ->
  let st' := consume i (length q) st in
  threads st' = threads st /\
  _action_queue st' = Some rest /\
  executed st' = executed st ++ q /\
  sleeps st' = sleeps st ++ map snd q /\
  _persist st' = _persist st /\
  teardowns st' = teardowns st /\
  puts st' = puts st /\
  feedback st `prefix_of` feedback st' /\
  (length (feedback st') <= length (feedback st) + length q)%nat.
Proof.
  revert st. induction q as [|[[act task_id] delay] q IH];
    intros st Hi Hq Hd; simpl.
  - unfold consume; simpl. rewrite !app_nil_r.
    repeat split; auto. lia.
  - inversion Hd as [|r l Hr Hl]; subst. unfold delay_ok in Hr; simpl in Hr.
    rewrite consume_S.
    rewrite (step_head i st act task_id delay (q ++ rest) Hi Hq Hr).
    match goal with |- context [consume i (length q) ?s] =>
      destruct (IH s) as (Ht & Hqu & He & Hs & Hp & Htd & Hpu & Hpre & Hlen);
      [exact Hi | reflexivity | exact Hl |]
    end.
    simpl in *. rewrite Ht, Hqu, He, Hs, Hp, Htd, Hpu.
    rewrite <- !app_assoc. simpl.
    repeat split; auto.
    + etransitivity; [|exact Hpre]. apply prefix_app_r. reflexivity.
    + rewrite length_app in Hlen.
      destruct (snd (run_action act (_ie st))); simpl in Hlen; lia.
Qed.

(** C8, amended: a consumer in its loop over a queue [before ++ B :: after]
    whose delays [time.sleep] accepts runs [before]; when [B] then raises,
    the exception is caught, exactly one feedback entry is recorded, tagged
    with the task id of [B], and the thread stays in its loop; every
    request of [after] is then run, in order, without a teardown, and each
    of them adds at most one feedback entry after that of [B]. *)
Theorem failure_isolated (i : nat) (st : state) (before after : list request)
    (act : action) (task_id delay : Z) (traceback : string) :
  threads st !! i = Some InLoop ->
  _action_queue st = Some (before ++ (act, task_id, delay) :: after) ->
  Forall delay_ok (before ++ (act, task_id, delay) :: after) ->
  let st1 := consume i (length before) st in
  snd (run_action act (_ie st1)) = Some traceback ->
  let st2 := consume i 1 st1 in
  let st3 := consume i (length after) st2 in
  executed st1 = executed st ++ before /\
  executed st2 = executed st1 ++ [(act, task_id, delay)] /\
  feedback st2 = feedback st1 ++ [(task_id, traceback)] /\
  threads st2 !! i = Some InLoop /\
  executed st3 = executed st ++ before ++ (act, task_id, delay) :: after /\
  threads st3 !! i = Some InLoop /\
  _action_queue st3 = Some [] /\
  teardowns st3 = teardowns st /\
  feedback st2 `prefix_of` feedback st3 /\
  (length (feedback st3) <= length (feedback st2) + length after)%nat.
Proof.
  intros Hi Hq Hd st1 Hraise st2 st3.
  apply Forall_app in Hd as [Hdb Hd].
  inversion Hd as [|r l Hr Hda]; subst. unfold delay_ok in Hr; simpl in Hr.
  destruct (consume_drain i before _ st Hi Hq Hdb)
    as (Ht1 & Hq1 & He1 & _ & _ & Htd1 & _ & _ & _).
  fold st1 in Ht1, Hq1, He1, Htd1.
  assert (Hi1 : threads st1 !! i = Some InLoop) by (rewrite Ht1; exact Hi).
  assert (Hst2 : st2 = step_thread i st1) by reflexivity.
  rewrite (step_head i st1 act task_id delay after Hi1 Hq1 Hr) in Hst2.
  rewrite Hraise in Hst2.
  assert (Hi2 : threads st2 !! i = Some InLoop) by (rewrite Hst2; exact Hi1).
  assert (Hq2 : _action_queue st2 = Some (after ++ []))
    by (rewrite Hst2, app_nil_r; reflexivity).
  destruct (consume_drain i after [] st2 Hi2 Hq2 Hda)
    as (Ht3 & Hq3 & He3 & _ & _ & Htd3 & _ & Hpre & Hlen).
  fold st3 in Ht3, Hq3, He3, Htd3, Hpre, Hlen.
  repeat split; auto.
  - rewrite Hst2. reflexivity.
  - rewrite Hst2. reflexivity.
  - rewrite He3, Hst2. simpl. rewrite He1, <- !app_assoc. reflexivity.
  - rewrite Ht3. exact Hi2.
  - rewrite Htd3, Hst2. simpl. exact Htd1.
Qed.

(** C9, amended: [get] succeeds exactly while a queue exists, and then it
    only appends its request to the queue; with no queue it raises
    [AttributeError] and re-creates nothing. After a full teardown, which
    leaves no queue, no thread and [_persist] true, it is [IEManager()]
    that re-creates the queue and the consumer, with the start action
    first, whatever consumer steps fall inside the construction; a [get]
    after it succeeds, and when [time.sleep] accepts the two delays the
    consumer starts the browser again and then runs the new action. *)
Theorem get_spec (site : string) (task_id delay : Z) (st : state) :
  (is_Ok (get site task_id delay st) = true <-> is_Some (_action_queue st)) /\
  (forall q, _action_queue st = Some q ->
     exists st', get site task_id delay st = Ok st' /\
       _action_queue st' = Some (q ++ [(_visit_site site, task_id, delay)]) /\
       threads st' = threads st /\ executed st' = executed st /\
       _ie st' = _ie st /\ _persist st' = _persist st /\
       feedback st' = feedback st /\ teardowns st' = teardowns st) /\
  (_action_queue st = None ->
     get site task_id delay st = Raise AttributeError) /\
  (forall mid : list nat,
     _action_queue st = None -> threads st = [] -> _persist st = true ->
     exists st1 st2,
       __new__ mid st = (st1, Ok tt) /\
       get site task_id delay st1 = Ok st2 /\
       threads st2 = [InLoop] /\
       _action_queue st2 =
         Some [(_start_ie, 0, 10); (_visit_site site, task_id, delay)] /\
       (delay_ok (_start_ie, 0, 10) ->
        delay_ok (_visit_site site, task_id, delay) ->
        let st3 := consume 0 2 st2 in
        executed st3 =
          executed st
            ++ [(_start_ie, 0, 10); (_visit_site site, task_id, delay)] /\
        _action_queue st3 = Some [] /\
        threads st3 = [InLoop] /\
        teardowns st3 = teardowns st /\
        _ie st3 =
          fst (run_action (_visit_site site)
                 (fst (run_action _start_ie (_ie st)))))).
Proof.
  split; [|split; [|split]].
  - unfold get. destruct (_action_queue st); simpl; split; eauto;
      try discriminate. intros [q Hq]. discriminate.
  - intros q Hq. unfold get. rewrite Hq. eexists. split; [reflexivity|].
    simpl. repeat split; reflexivity.
  - intros Hq. unfold get. rewrite Hq. reflexivity.
  - intros mid Hq Ht Hp. unfold __new__. rewrite Hq.
    rewrite steps_idle; simpl; [|rewrite Ht; reflexivity | reflexivity
                               | exact Hp].
    destruct st as [q0 h p ts pu ex fb sl td]; simpl in *. subst q0 ts p.
    eexists. eexists. split; [reflexivity|].
    unfold get. simpl. split; [reflexivity|].
    split; [reflexivity|]. split; [reflexivity|].
    intros H10 Hd. unfold delay_ok in H10, Hd. simpl in H10, Hd.
    match goal with |- context [consume 0 2 ?s] =>
      rewrite (consume_S 0 1 s),
        (step_head 0 s _start_ie 0 10 [(_visit_site site, task_id, delay)]
           eq_refl eq_refl H10)
    end.
    match goal with |- context [consume 0 1 ?s] =>
      rewrite (consume_S 0 0 s),
        (step_head 0 s (_visit_site site) task_id delay [] eq_refl eq_refl Hd)
    end.
    simpl. rewrite <- app_assoc. repeat split; reflexivity.
Qed.

End ManagerFacts.


(** C8, counterexample: the failing action carries a negative delay. Its
    exception is caught and reported, but [time.sleep] then raises outside
    the [try]: the consumer ends and the request queued behind it is never
    run. *)
Lemma failure_then_bad_delay_ends_worker :
  let st := run [ENew []; EGet "" 2 (-1); EGet "example.com" 3 0]
              (@initial counting_browser) in
  let st' := consume 0 2 st in
  feedback st' = [(2, "Traceback: Navigate")] /\
  threads st' = [] /\
  _action_queue st' = Some [(_visit_site "example.com", 3, 0)] /\
  forall i n,
    executed (consume i n st') = [(_start_ie, 0, 10); (_visit_site "", 2, -1)].
Proof.
  intros st st'. do 3 (split; [vm_compute; reflexivity|]).
  intros i n. rewrite consume_no_thread; vm_compute; reflexivity.
Qed.

(** C8 at a queue whose third action, a visit of the empty address, raises
    in the example browser. *)
Lemma failure_isolated_witness :
  let st := run [ENew []; EGet "example.org" 1 0; EGet "" 2 0;
                 EGet "example.com" 3 0] (@initial counting_browser) in
  feedback (consume 0 3 st) = [(2, "Traceback: Navigate")] /\
  executed (consume 0 4 st) =
    [(_start_ie, 0, 10); (_visit_site "example.org", 1, 0);
     (_visit_site "", 2, 0); (_visit_site "example.com", 3, 0)].
Proof.
  intros st.
  destruct (@failure_isolated counting_browser 0 st
              [(_start_ie, 0, 10); (_visit_site "example.org", 1, 0)]
              [(_visit_site "example.com", 3, 0)]
              (_visit_site "") 2 0 "Traceback: Navigate")
    as (_ & _ & Hfb & _ & Hex & _).
  - vm_compute. reflexivity.
  - vm_compute. reflexivity.
  - simpl. repeat (constructor; [vm_compute; reflexivity|]). constructor.
  - vm_compute. reflexivity.
  - vm_compute in Hfb, Hex. vm_compute. split; [exact Hfb | exact Hex].
Defined.

(** C9, counterexample: after the consumer has torn the executor down, and
    before [IEManager()] was ever called, [get] raises. *)
Lemma get_after_teardown_raises :
  let st := run [ENew []; EStep 0; EClose; EStep 0; EStep 0; EStep 0;
                 EStep 0]
              (@initial counting_browser) in
  teardowns st = 1%nat /\ _action_queue st = None /\ threads st = [] /\
  get "example.org" 1 0 st = Raise AttributeError /\
  get "example.org" 1 0 (@initial counting_browser) = Raise AttributeError.
Proof. vm_compute. repeat split. Qed.

(** C9 after the teardown of the counterexample, with two consumer steps
    inside the construction. *)
Lemma get_spec_witness :
  let st := run [ENew []; EStep 0; EClose; EStep 0; EStep 0; EStep 0;
                 EStep 0]
              (@initial counting_browser) in
  exists st1 st2,
    __new__ [0%nat; 0%nat] st = (st1, Ok tt) /\
    get "example.org" 1 0 st1 = Ok st2 /\
    executed (consume 0 2 st2) =
      [(_start_ie, 0, 10); (_start_ie, 0, 10);
       (_visit_site "example.org", 1, 0)] /\
    _ie (consume 0 2 st2) = Some 1%nat.
Proof.
  intros st.
  destruct (@get_spec counting_browser "example.org" 1 0 st)
    as (_ & _ & _ & Hnew).
  destruct (Hnew [0%nat; 0%nat])
    as (st1 & st2 & Hn & Hget & _ & _ & Hrun);
    [vm_compute; reflexivity | vm_compute; reflexivity
    | vm_compute; reflexivity |].
  destruct Hrun as (Hex & _ & _ & _ & Hie);
    [vm_compute; reflexivity | vm_compute; reflexivity |].
  exists st1, st2. split; [exact Hn|]. split; [exact Hget|].
  rewrite Hex, Hie. vm_compute. split; reflexivity.
Defined.

(** C6, the failing schedule: shutdown is requested and the consumer leaves
    its loop on the empty queue; before it reaches line 71 a request is
    submitted and shutdown is requested again. The reset drops the request:
    the teardown completes and the request is never run. *)
Theorem shutdown_race_drops_request :
  let st := run [ENew []; EStep 0; EClose; EStep 0;
                 EGet "example.org" 7 0; EClose]
              (@initial counting_browser) in
  _action_queue st = Some [(_visit_site "example.org", 7, 0)] /\
  _persist st = false /\
  threads st = [Line71] /\
  let st' := consume 0 3 st in
  _action_queue st' = None /\ _ie st' = None /\ threads st' = [] /\
  teardowns st' = 1%nat /\
  forall i n, executed (consume i n st') = [(_start_ie, 0, 10)].
Proof.
  intros st. do 3 (split; [vm_compute; reflexivity|]).
  intros st'. do 4 (split; [vm_compute; reflexivity|]).
  intros i n. rewrite consume_no_thread; vm_compute; reflexivity.
Qed.

End IEManagerFacts.

(** ** The Internet Explorer task *)

Module IEBrowserFacts.
Import IEManager IEBrowser.

(** C10: on a platform other than Windows the constructor raises [OSError]
    and leaves the shared state of [IEManager] as it was: no queue, no
    thread, no request. *)
Theorem init_not_windows `{!Browser} (platform_system : string)
    (super_init : result unit) (config : gmap string value)
    (mid : list nat) (st : state) :
  platform_system <> "Windows" ->
  __init__ platform_system super_init config mid st =
    (Raise (OSError "This task is only compatible with Windows."), st).
Proof.
  intros Hp. unfold __init__.
  destruct (String.eqb_spec platform_system "Windows"); [contradiction|].
  reflexivity.
Qed.

Lemma init_not_windows_witness :
  "Linux" <> "Windows" /\
  __init__ "Linux" (Ok tt) {[ "close_browser" := VBool true ]} [0%nat]
    (@initial counting_browser) =
    (Raise (OSError "This task is only compatible with Windows."),
     @initial counting_browser).
Proof.
  split; [discriminate|].
  apply (@init_not_windows counting_browser). discriminate.
Defined.

End IEBrowserFacts.

(** ** Further properties of the trigger *)

Module FrequencyRuns.
Import Frequency FrequencyFacts.

Lemma exec_op_triggered (o : op) (self : t) :
  _triggered self <= _triggered (exec_op o self)
  /\ _triggered (exec_op o self)
     <= _triggered self + (if is_sample o then 1 else 0).
Proof.
  destruct o as [now draw| | |]; simpl; try lia.
  destruct (call_effect self now draw) as (_ & Ht & _).
  rewrite Ht. destruct (fired self now draw); lia.
Qed.

Lemma exec_op_stop (o : op) (self : t) :
  stop self = true -> stop (exec_op o self) = true.
Proof.
  rewrite !stop_true_iff. intros [Hr Ht].
  destruct (exec_op_frame o self) as (-> & _).
  pose proof (exec_op_triggered o self). lia.
Qed.

Lemma exec_ops_time_per_trigger (os : list op) (self : t) :
  _time_per_trigger (exec_ops os self) = _time_per_trigger self.
Proof.
  unfold exec_ops. revert self.
  induction os as [|o os IH]; intros self; simpl; [reflexivity|].
  rewrite IH. apply exec_op_frame.
Qed.

Lemma Qis_zero_mean_interval (q : Q) :
  Qis_zero q = false -> Qis_zero (3600 / q) = false.
Proof.
  destruct q as [[|n|n] d]; unfold Qis_zero; simpl; intros Hq;
    try discriminate; reflexivity.
Qed.

(** The trigger count never decreases, and a run raises it by at most the
    number of its sample invocations: one fire per sample at most. *)
Theorem triggered_monotone (os : list op) (self : t) :
  _triggered self <= _triggered (exec_ops os self)
  /\ _triggered (exec_ops os self) <= _triggered self + samples os.
Proof.
  unfold exec_ops, samples. revert self.
  induction os as [|o os IH]; intros self; simpl; [lia|].
  specialize (IH (exec_op o self)).
  pose proof (exec_op_triggered o self) as Ho.
  destruct (is_sample o); simpl length in *; lia.
Qed.

(** Once [stop()] answers true it answers true after every further run of
    operations: a bounded trigger that has fired its repetitions never
    becomes active again. *)
Theorem stop_stays_true (os : list op) (self : t) :
  stop self = true -> stop (exec_ops os self) = true.
Proof.
  unfold exec_ops. revert self.
  induction os as [|o os IH]; intros self Hs; simpl; [exact Hs|].
  apply IH, exec_op_stop, Hs.
Qed.

Lemma stop_stays_true_witness :
  stop (exec_ops [OpCall 5 0; OpStatus; OpCall 9 (1 # 3)]
          (mk (FNum 1) 2 2 VNone 0)) = true.
Proof.
  apply stop_stays_true. reflexivity.
Defined.

(** The division of line 27, for a trigger that [__init__] has built and
    after any run of operations: it raises exactly when the frequency is
    infinite, the mean interval being zero then, and it raises nothing but
    [ZeroDivisionError]. With an infinite frequency every sample raises it:
    the clock of the trigger is moved and nothing else is written. *)
Theorem division_raises_iff_infinite (freq : pyfloat) (reps : Z)
    (task : value) (now0 : Q) (self : t) (os : list op) (now : Q) :
  __init__ freq reps task now0 = Ok self ->
  let cur := exec_ops os self in
  (trigger_probability cur now = Raise ZeroDivisionError
   <-> exists n : bool, freq = FInf n)
  /\ (forall e : exn,
        trigger_probability cur now = Raise e -> e = ZeroDivisionError)
  /\ ((exists n : bool, freq = FInf n) ->
      forall draw : Q,
        snd (__call__ cur now draw) = Raise ZeroDivisionError
        /\ _triggered (fst (__call__ cur now draw)) = _triggered cur
        /\ _last_check (fst (__call__ cur now draw)) = now).
Proof.
  intros Hinit cur.
  assert (Hcall : forall draw : Q,
            trigger_probability cur now = Raise ZeroDivisionError ->
            snd (__call__ cur now draw) = Raise ZeroDivisionError
            /\ _triggered (fst (__call__ cur now draw)) = _triggered cur
            /\ _last_check (fst (__call__ cur now draw)) = now).
  { intros draw Hp.
    destruct (call_effect cur now draw) as (Hl & Ht & _ & _ & _ & Hout).
    unfold fired in Ht. rewrite Hp in Ht, Hout. auto. }
  revert Hcall. unfold trigger_probability.
  unfold cur. rewrite exec_ops_time_per_trigger. fold cur.
  unfold __init__ in Hinit.
  destruct freq as [q|n|]; simpl in Hinit.
  - destruct (Qis_zero q) eqn:Hq; simpl in Hinit; [discriminate|].
    injection Hinit as <-. simpl.
    rewrite (Qis_zero_mean_interval q Hq). intros _.
    split; [split|split].
    + discriminate.
    + intros [n Hn]. discriminate.
    + intros e He. discriminate.
    + intros [n Hn]. discriminate.
  - injection Hinit as <-. simpl. intros Hcall.
    split; [split; eauto|split].
    + intros e [= <-]. reflexivity.
    + intros _ draw. apply Hcall. reflexivity.
  - injection Hinit as <-. simpl. intros _.
    split; [split|split].
    + discriminate.
    + intros [n Hn]. discriminate.
    + intros e He. discriminate.
    + intros [n Hn]. discriminate.
Qed.

Lemma division_raises_iff_infinite_witness :
  snd (__call__ (exec_ops [OpStop] (mk (FNum 0) 3 0 VNone 0)) 7 (1 # 2))
  = Raise ZeroDivisionError.
Proof.
  destruct (division_raises_iff_infinite (FInf false) 3 VNone 0
              (mk (FNum 0) 3 0 VNone 0) [OpStop] 7 eq_refl)
    as (_ & _ & Hcall).
  apply (Hcall (ex_intro _ false eq_refl) (1 # 2)).
Defined.

(** With a positive finite mean interval [m] and a draw in [0, 1): a
    sample taken when no time has passed since the previous one, or when the
    clock has stepped back, never fires; a sample taken [m] seconds or more
    after the previous one always fires. *)
Theorem fire_bounds (self : t) (m now draw : Q) :
  _time_per_trigger self = FNum m ->
  (0 < m)%Q ->
  is_draw draw ->
  ((now - _last_check self <= 0)%Q -> fired self now draw = false)
  /\ ((m <= now - _last_check self)%Q -> fired self now draw = true).
Proof.
  intros Hm Hpos [Hd0 Hd1].
  unfold fired, trigger_probability. rewrite Hm. unfold float_div.
  rewrite (Qis_zero_false_pos m Hpos). simpl. split; intros Hs.
  - apply Qltb_ge. apply Qle_trans with 0%Q; [|exact Hd0].
    apply Qle_shift_div_r; [exact Hpos|]. lra.
  - apply Qltb_lt. apply Qlt_le_trans with 1%Q; [exact Hd1|].
    apply Qle_shift_div_l; [exact Hpos|]. lra.
Qed.

Lemma fire_bounds_witness :
  fired (mk (FNum 2) 0 0 VNone 10) 10 0 = false
  /\ fired (mk (FNum 2) 0 0 VNone 10) 13 (9 # 10) = true.
Proof.
  split.
  - apply (fire_bounds (mk (FNum 2) 0 0 VNone 10) 2 10 0); simpl;
      [reflexivity | reflexivity | split; [discriminate | reflexivity]
      | discriminate].
  - apply (fire_bounds (mk (FNum 2) 0 0 VNone 10) 2 13 (9 # 10)); simpl;
      [reflexivity | reflexivity | split; [discriminate | reflexivity]
      | discriminate].
Defined.

Section ConfigRuns.
Context `{!PyBuiltins}.

(** [config] accepts the floats NaN and positive infinity as a frequency:
    neither is [<= 0]. The trigger it returns never fires: with NaN every
    comparison of line 28 is false, and with infinity the mean interval is
    zero and every sample raises at line 27. *)
Theorem config_accepts_nan_and_inf (conf : gmap string value) (f : pyfloat)
    (now : Q) :
  conf !! "frequency" = Some (VFloat f) ->
  f = FNaN \/ f = FInf false ->
  repetitions_ok conf ->
  is_Some (conf !! "task") ->
  exists self : t,
    config conf now = Ok self
    /\ forall now' draw : Q, fired self now' draw = false.
Proof.
  intros Hf Hcase (w & n & Hw & Hn & Hpos) [task Htask].
  unfold config, config_frequency, config_repetitions, config_task.
  rewrite Hf, Hw, Htask. simpl. rewrite Hn. simpl.
  destruct (Z.ltb_spec n 0) as [Hlt|_]; [lia|].
  destruct Hcase as [-> | ->]; simpl; eexists; (split; [reflexivity|]);
    intros now' draw; reflexivity.
Qed.

(** The instance [config] returns is fresh: it has not fired, its number
    of repetitions is not negative, its clock is the time of construction,
    its nested configuration is the [task] field, the invariant of the data
    model holds and [stop()] answers false. *)
Theorem config_fresh_instance (conf : gmap string value) (now : Q)
    (self : t) :
  config conf now = Ok self ->
  _triggered self = 0
  /\ 0 <= _reps self
  /\ _last_check self = now
  /\ conf !! "task" = Some (_task self)
  /\ invariant self
  /\ stop self = false.
Proof.
  unfold config, config_task. intros Hc.
  pose proof (config_repetitions_cases conf) as HR.
  destruct (config_frequency conf) as [f|e]; simpl in Hc; [|discriminate].
  destruct (config_repetitions conf) as [n|e]; simpl in Hc; [|discriminate].
  destruct HR as (w & _ & _ & Hn).
  destruct (conf !! "task") as [task|]; simpl in Hc; [|discriminate].
  unfold __init__ in Hc.
  destruct (float_div (FNum 3600) f); simpl in Hc; [|discriminate].
  injection Hc as <-. unfold invariant, stop. simpl.
  repeat split; try lia.
  destruct (Z.eqb_spec n 0); simpl; [reflexivity|].
  destruct (Z.ltb_spec 0 n); [reflexivity | lia].
Qed.

End ConfigRuns.

Lemma config_accepts_nan_and_inf_witness :
  exists self : t,
    @config decimal_builtins
      {[ "frequency" := VFloat FNaN; "repetitions" := VInt 0;
         "task" := VNone ]} 0 = Ok self
    /\ forall now' draw : Q, fired self now' draw = false.
Proof.
  apply (@config_accepts_nan_and_inf decimal_builtins _ FNaN 0).
  - reflexivity.
  - left. reflexivity.
  - exists (VInt 0), 0. split; [reflexivity|]. split; [reflexivity | lia].
  - exists VNone. reflexivity.
Defined.

Lemma config_fresh_instance_witness :
  stop (mk (FNum (3600 / 4)) 2 0 (VStr "nested") 0) = false.
Proof.
  apply (@config_fresh_instance decimal_builtins
           {[ "frequency" := VStr "4"; "repetitions" := VInt 2;
              "task" := VStr "nested" ]} 0).
  vm_compute. reflexivity.
Defined.

End FrequencyRuns.

(** ** Further properties of the executor *)

Module ExecutorRuns.
Import IEManager IEManagerFacts.

Section Runs.
Context `{!Browser}.

(** The consumer on an empty queue after a shutdown request: it leaves the
    loop and runs lines 71 to 85. *)
Lemma teardown_steps (st : state) :
  threads st = [InLoop] ->
  _action_queue st = Some [] ->
  _persist st = false ->
  consume 0 4 st =
    mkState None None true [] (puts st) (executed st) (feedback st)
      (sleeps st) (S (teardowns st)).
Proof.
  destruct st as [q h p ts pu ex fb sl td]; simpl.
  intros -> -> ->. reflexivity.
Qed.

Lemma executed_grows_step (i : nat) (st : state) :
  executed st `prefix_of` executed (step_thread i st).
Proof.
  unfold step_thread. destruct (threads st !! i) as [[| | |]|];
    try reflexivity.
  destruct (_action_queue st) as [[|[[act task_id] delay] q]|] eqn:Hq.
  - unfold loop_iteration. rewrite Hq. destruct (_persist st); reflexivity.
  - rewrite (loop_iteration_head i st act task_id delay q Hq). simpl.
    apply prefix_app_r. reflexivity.
  - unfold loop_iteration. rewrite Hq. reflexivity.
Qed.

Lemma executed_grows_steps (mid : list nat) (st : state) :
  executed st `prefix_of` executed (steps mid st).
Proof.
  unfold steps. revert st.
  induction mid as [|i mid IH]; intros st; simpl; [reflexivity|].
  etransitivity; [apply executed_grows_step | apply IH].
Qed.

Lemma executed_grows (e : event) (st : state) :
  executed st `prefix_of` executed (run_event e st).
Proof.
  destruct e as [mid|site task_id delay| |i]; simpl.
  - unfold __new__. destruct (_action_queue st); [reflexivity|].
    match goal with |- context [steps mid ?s] =>
      pose proof (executed_grows_steps mid s) as Hg;
      destruct (_action_queue (steps mid s)) end; exact Hg.
  - unfold get. destruct (_action_queue st); reflexivity.
  - reflexivity.
  - apply executed_grows_step.
Qed.

(** Calls of the main thread leave what only the consumer writes. *)
Lemma call_frame_event (e : event) (st : state) :
  is_call e = true ->
  _ie (run_event e st) = _ie st
  /\ executed (run_event e st) = executed st
  /\ feedback (run_event e st) = feedback st
  /\ sleeps (run_event e st) = sleeps st
  /\ teardowns (run_event e st) = teardowns st.
Proof.
  destruct e as [mid|site task_id delay| |i]; simpl; intros He;
    try discriminate.
  - destruct mid; [|discriminate].
    unfold __new__. destruct (_action_queue st); simpl; auto.
  - unfold get. destruct (_action_queue st); simpl; auto.
  - auto.
Qed.

(** A state whose consumer is gone while the queue object remains. *)
Lemma dead_event (e : event) (st : state) :
  threads st = [] ->
  is_Some (_action_queue st) ->
  threads (run_event e st) = []
  /\ is_Some (_action_queue (run_event e st))
  /\ executed (run_event e st) = executed st
  /\ teardowns (run_event e st) = teardowns st
  /\ _ie (run_event e st) = _ie st.
Proof.
  intros Ht [q Hq].
  destruct e as [mid|site task_id delay| |i]; simpl.
  - unfold __new__. rewrite Hq. simpl. rewrite Ht, Hq. eauto 10.
  - unfold get. rewrite Hq. simpl. rewrite Ht. eauto 10.
  - rewrite Ht, Hq. eauto 10.
  - unfold step_thread. rewrite Ht. simpl. rewrite Hq. eauto 10.
Qed.

(** Without a shutdown request every consumer stays in its loop. *)
Lemma persistent_step (i : nat) (st : state) :
  _persist st = true /\ teardowns st = 0%nat
  /\ Forall (fun p => p = InLoop) (threads st) ->
  _persist (step_thread i st) = true /\ teardowns (step_thread i st) = 0%nat
  /\ Forall (fun p => p = InLoop) (threads (step_thread i st)).
Proof.
  intros (Hp & Htd & Hts).
  unfold step_thread. destruct (threads st !! i) as [pc0|] eqn:Hi; auto.
  rewrite (Forall_lookup_1 _ _ _ _ Hts Hi).
  destruct (_action_queue st) as [[|[[act task_id] delay] q]|] eqn:Hq.
  - unfold loop_iteration. rewrite Hq, Hp. auto.
  - rewrite (loop_iteration_head i st act task_id delay q Hq). simpl.
    repeat split; auto. destruct (sleep_raises delay); auto.
    apply Forall_delete, Hts.
  - unfold loop_iteration. rewrite Hq. simpl.
    repeat split; auto. apply Forall_delete, Hts.
Qed.

Lemma persistent_steps (mid : list nat) (st : state) :
  _persist st = true /\ teardowns st = 0%nat
  /\ Forall (fun p => p = InLoop) (threads st) ->
  _persist (steps mid st) = true /\ teardowns (steps mid st) = 0%nat
  /\ Forall (fun p => p = InLoop) (threads (steps mid st)).
Proof.
  unfold steps. revert st.
  induction mid as [|i mid IH]; intros st Hst; simpl; [exact Hst|].
  apply IH, persistent_step, Hst.
Qed.

Lemma persistent_event (e : event) (st : state) :
  is_close e = false ->
  _persist st = true /\ teardowns st = 0%nat
  /\ Forall (fun p => p = InLoop) (threads st) ->
  _persist (run_event e st) = true /\ teardowns (run_event e st) = 0%nat
  /\ Forall (fun p => p = InLoop) (threads (run_event e st)).
Proof.
  intros He Hst.
  destruct e as [mid|site task_id delay| |i]; simpl; try discriminate.
  - unfold __new__. destruct (_action_queue st); [exact Hst|].
    match goal with |- context [steps mid ?s] =>
      assert (Hs : _persist (steps mid s) = true
                   /\ teardowns (steps mid s) = 0%nat
                   /\ Forall (fun p => p = InLoop) (threads (steps mid s)));
      [|destruct (_action_queue (steps mid s)); exact Hs]
    end.
    apply persistent_steps. destruct Hst as (Hp & Htd & Hts). simpl.
    repeat split; auto. apply Forall_app. split; auto.
  - unfold get. destruct (_action_queue st); simpl; auto.
  - apply persistent_step, Hst.
Qed.

(** Working off the requests [q]: what a run keeps, event by event. *)
Lemma draining_run (ex0 : list request) (td0 : nat) (q : list request)
    (es : list event) (cur : state) :
  Forall delay_ok q ->
  (ex0 ++ q) `prefix_of` executed cur
  \/ (exists (k : nat) (more : list request),
        (k < length q)%nat
        /\ executed cur = ex0 ++ take k q
        /\ _action_queue cur = Some (drop k q ++ more)
        /\ threads cur = [InLoop]
        /\ teardowns cur = td0) ->
  (ex0 ++ q) `prefix_of` executed (run es cur)
  \/ (exists (k : nat) (more : list request),
        (k < length q)%nat
        /\ executed (run es cur) = ex0 ++ take k q
        /\ _action_queue (run es cur) = Some (drop k q ++ more)
        /\ threads (run es cur) = [InLoop]
        /\ teardowns (run es cur) = td0).
Proof.
  intros Hd. revert cur.
  induction es as [|e es IH]; intros cur Hcur; simpl; [exact Hcur|].
  apply IH.
  destruct Hcur as [Hdone | (k & more & Hk & Hex & Hqu & Hth & Htd)].
  - left. etransitivity; [exact Hdone | apply executed_grows].
  - destruct (lookup_lt_is_Some_2 q k Hk) as [[[act task_id] delay] Hr].
    assert (Hdel : sleep_raises delay = false)
      by exact (Forall_lookup_1 _ _ _ _ Hd Hr).
    destruct e as [mid|site task_id' delay'| |i]; simpl.
    + right. exists k, more. unfold __new__. rewrite Hqu. simpl. auto.
    + right. exists k, (more ++ [(_visit_site site, task_id', delay')]).
      unfold get. rewrite Hqu. simpl. rewrite <- app_assoc. auto.
    + right. exists k, more. simpl. auto.
    + destruct i as [|i].
      * assert (Hi : threads cur !! 0%nat = Some InLoop)
          by (rewrite Hth; reflexivity).
        assert (Hqu' : _action_queue cur
                       = Some ((act, task_id, delay)
                                 :: (drop (S k) q ++ more)))
          by (rewrite Hqu, (drop_S _ _ _ Hr); reflexivity).
        rewrite (step_head 0 cur act task_id delay _ Hi Hqu' Hdel).
        destruct (decide (S k = length q)) as [Hlast|Hmore].
        -- left. simpl. rewrite Hex, <- app_assoc. apply prefix_app.
           exists []. rewrite app_nil_r.
           rewrite <- (firstn_all q) at 2. rewrite <- Hlast.
           symmetry. apply take_S_r, Hr.
        -- right. exists (S k), more. simpl.
           split; [lia|]. split; [|auto].
           rewrite Hex, <- app_assoc. f_equal.
           symmetry. apply take_S_r, Hr.
      * right. exists k, more. unfold step_thread. rewrite Hth. simpl. auto.
Qed.

(** Nothing moves once the consumer is gone and the queue remains. *)
Lemma dead_run (es : list event) (cur : state) :
  threads cur = [] ->
  is_Some (_action_queue cur) ->
  threads (run es cur) = []
  /\ is_Some (_action_queue (run es cur))
  /\ executed (run es cur) = executed cur
  /\ teardowns (run es cur) = teardowns cur
  /\ _ie (run es cur) = _ie cur.
Proof.
  revert cur. induction es as [|e es IH]; intros cur Hth Hsome; simpl;
    [auto|].
  destruct (dead_event e cur Hth Hsome) as (E1 & E2 & E3 & E4 & E5).
  destruct (IH _ E1 E2) as (I1 & I2 & I3 & I4 & I5).
  rewrite <- E3, <- E4, <- E5. auto.
Qed.

(** A shutdown request on a consumer in its loop drains the queue first:
    while requests that were queued remain, each step of the consumer runs
    the next of them and no teardown happens; after them the consumer
    leaves the loop and tears down: the queue and the browser handle are
    reset, [_persist] is true again, the thread is gone and [status()]
    reports a browser that is not started. *)
Theorem shutdown_drains (st : state) (q : list request) :
  threads st = [InLoop] ->
  _action_queue st = Some q ->
  Forall delay_ok q ->
  (forall n : nat, (n <= length q)%nat ->
     let st' := consume 0 n (close_browser st) in
     executed st' = executed st ++ take n q
     /\ teardowns st' = teardowns st
     /\ threads st' = [InLoop])
  /\ (let st' := consume 0 (length q + 4) (close_browser st) in
      executed st' = executed st ++ q
      /\ sleeps st' = sleeps st ++ map snd q
      /\ _action_queue st' = None
      /\ _ie st' = None
      /\ _persist st' = true
      /\ threads st' = []
      /\ teardowns st' = S (teardowns st)
      /\ status st' = "IE has not yet been fully started.").
Proof.
  intros Ht Hq Hd.
  assert (Hi : threads (close_browser st) !! 0%nat = Some InLoop)
    by (simpl; rewrite Ht; reflexivity).
  split.
  - intros n Hn.
    assert (Hlen : length (take n q) = n) by (rewrite length_take; lia).
    assert (Hq' : _action_queue (close_browser st)
                  = Some (take n q ++ drop n q))
      by (rewrite take_drop; exact Hq).
    pose proof (consume_drain 0 (take n q) (drop n q) (close_browser st)
                  Hi Hq' (Forall_take _ n _ Hd)) as D.
    cbv zeta in D. rewrite Hlen in D.
    destruct D as (D1 & _ & D2 & _ & _ & D3 & _).
    cbv zeta. rewrite D1, D2, D3. simpl. auto.
  - assert (Hq' : _action_queue (close_browser st) = Some (q ++ []))
      by (rewrite app_nil_r; exact Hq).
    pose proof (consume_drain 0 q [] (close_browser st) Hi Hq' Hd) as D.
    cbv zeta in D.
    destruct D as (D1 & D2 & D3 & D4 & D5 & D6 & _).
    cbv zeta. rewrite consume_add.
    rewrite teardown_steps;
      [|rewrite D1; exact Ht | exact D2 | rewrite D5; reflexivity].
    unfold status. simpl. rewrite D3, D4, D6. simpl. auto 10.
Qed.

(** Requests that are on the queue while the consumer is in its loop are
    run before any teardown, whatever the main thread does in between:
    along every interleaving, either all of them have been run, or the
    consumer is still in its loop, no teardown has happened, and a proper
    prefix of them has been run while the others are still at the head of
    the queue. *)
Theorem queued_before_teardown (st : state) (q : list request)
    (es : list event) :
  threads st = [InLoop] ->
  _action_queue st = Some q ->
  Forall delay_ok q ->
  let st' := run es st in
  (executed st ++ q) `prefix_of` executed st'
  \/ (exists (k : nat) (more : list request),
        (k < length q)%nat
        /\ executed st' = executed st ++ take k q
        /\ _action_queue st' = Some (drop k q ++ more)
        /\ threads st' = [InLoop]
        /\ teardowns st' = teardowns st).
Proof.
  intros Ht Hq Hd. cbv zeta.
  apply (draining_run (executed st) (teardowns st) q es st Hd).
  destruct q as [|r q].
  - left. rewrite app_nil_r. reflexivity.
  - right. exists 0%nat, []. simpl. rewrite !app_nil_r.
    repeat split; auto. lia.
Qed.

(** A negative delay ends the consumer for good: the action runs,
    [time.sleep] raises outside the [try], and the thread dies without a
    teardown. The queue object stays, so from then on, whatever is called,
    [IEManager()] creates no new consumer, submissions are accepted, and
    nothing is run and nothing is torn down. *)
Theorem negative_delay_ends_consumer (st : state) (act : action)
    (task_id delay : Z) (q : list request) (es : list event) :
  threads st = [InLoop] ->
  _action_queue st = Some ((act, task_id, delay) :: q) ->
  delay < 0 ->
  let st1 := step_thread 0 st in
  let st' := run es st1 in
  executed st1 = executed st ++ [(act, task_id, delay)]
  /\ threads st' = []
  /\ is_Some (_action_queue st')
  /\ executed st' = executed st1
  /\ teardowns st' = teardowns st
  /\ _ie st' = _ie st1.
Proof.
  intros Ht Hq Hd st1 st'.
  assert (Hst1 : st1 = loop_iteration 0 st)
    by (unfold st1, step_thread; rewrite Ht; reflexivity).
  rewrite (loop_iteration_head 0 st act task_id delay q Hq) in Hst1.
  assert (Hsr : sleep_raises delay = true).
  { unfold sleep_raises. destruct (Z.ltb_spec delay 0); [reflexivity | lia]. }
  rewrite Hsr, Ht in Hst1. simpl in Hst1.
  assert (Hdead : threads st1 = [] /\ is_Some (_action_queue st1)
                  /\ teardowns st1 = teardowns st)
    by (rewrite Hst1; simpl; eauto).
  destruct Hdead as (Hth & Hsome & Htd).
  destruct (dead_run es st1 Hth Hsome) as (R1 & R2 & R3 & R4 & R5).
  fold st' in R1, R2, R3, R4, R5.
  split; [rewrite Hst1; reflexivity|].
  rewrite <- Htd. auto.
Qed.

(** Calls of the main thread are fire and forget: a run of constructions,
    submissions and shutdown requests runs no action, does not touch the
    browser handle, records no feedback, does not sleep and tears nothing
    down. Only the steps of the consumer do. *)
Theorem calls_touch_no_browser (es : list event) (st : state) :
  forallb is_call es = true ->
  _ie (run es st) = _ie st
  /\ executed (run es st) = executed st
  /\ feedback (run es st) = feedback st
  /\ sleeps (run es st) = sleeps st
  /\ teardowns (run es st) = teardowns st.
Proof.
  revert st. induction es as [|e es IH]; intros st Hes; simpl in *; [auto|].
  apply andb_true_iff in Hes as [He Hes].
  destruct (call_frame_event e st He) as (E1 & E2 & E3 & E4 & E5).
  destruct (IH (run_event e st) Hes) as (I1 & I2 & I3 & I4 & I5).
  rewrite <- E1, <- E2, <- E3, <- E4, <- E5. auto.
Qed.

(** Without a shutdown request the executor is never torn down: along every
    interleaving from the initial class state that contains no call of
    [close_browser], [_persist] stays true, every live consumer is in its
    loop and no teardown has happened. *)
Theorem no_teardown_without_close (es : list event) :
  forallb (fun e => negb (is_close e)) es = true ->
  let st := run es initial in
  _persist st = true
  /\ teardowns st = 0%nat
  /\ Forall (fun p => p = InLoop) (threads st).
Proof.
  intros Hes. cbv zeta.
  assert (Hinit : _persist initial = true /\ teardowns initial = 0%nat
                  /\ Forall (fun p => p = InLoop) (threads initial))
    by (simpl; auto).
  revert Hinit. generalize initial as cur.
  induction es as [|e es IH]; intros cur Hcur; simpl in *; [exact Hcur|].
  apply andb_true_iff in Hes as [He Hes].
  apply (IH Hes), persistent_event; [|exact Hcur].
  destruct (is_close e); [discriminate | reflexivity].
Qed.

End Runs.

Lemma shutdown_drains_witness :
  let st := run [ENew [0%nat]; EGet "example.org" 1 0;
                 EGet "example.com" 2 3]
              (@initial counting_browser) in
  executed (consume 0 (3 + 4) (close_browser st)) =
    [(_start_ie, 0, 10); (_visit_site "example.org", 1, 0);
     (_visit_site "example.com", 2, 3)]
  /\ teardowns (consume 0 (3 + 4) (close_browser st)) = 1%nat.
Proof.
  intros st.
  destruct (@shutdown_drains counting_browser st
              [(_start_ie, 0, 10); (_visit_site "example.org", 1, 0);
               (_visit_site "example.com", 2, 3)])
    as (_ & Hex & _ & _ & _ & _ & _ & Htd & _).
  - vm_compute. reflexivity.
  - vm_compute. reflexivity.
  - repeat (constructor; [vm_compute; reflexivity|]). constructor.
  - split; [exact Hex | exact Htd].
Defined.

Lemma queued_before_teardown_witness :
  let st := run [ENew []; EGet "example.org" 1 0]
              (@initial counting_browser) in
  let st' := run [EClose; EStep 0; EGet "example.com" 2 0; EStep 0; EStep 0;
                  EStep 0; EStep 0]
               st in
  [(_start_ie, 0, 10); (_visit_site "example.org", 1, 0)]
    `prefix_of` executed st'.
Proof.
  intros st st'.
  destruct (@queued_before_teardown counting_browser st
              [(_start_ie, 0, 10); (_visit_site "example.org", 1, 0)]
              [EClose; EStep 0; EGet "example.com" 2 0; EStep 0; EStep 0;
               EStep 0; EStep 0])
    as [Hdone | (k & more & _ & _ & Hqu & _)].
  - vm_compute. reflexivity.
  - vm_compute. reflexivity.
  - repeat (constructor; [vm_compute; reflexivity|]). constructor.
  - exact Hdone.
  - vm_compute in Hqu. discriminate.
Defined.

Lemma negative_delay_ends_consumer_witness :
  let st := run [ENew []; EStep 0; EGet "example.org" 1 (-1);
                 EGet "example.com" 2 0]
              (@initial counting_browser) in
  threads (run [EStep 0; ENew [0%nat]; EGet "example.net" 3 0; EStep 0;
                EClose; EStep 0]
             (step_thread 0 st)) = [].
Proof.
  intros st.
  destruct (@negative_delay_ends_consumer counting_browser st
              (_visit_site "example.org") 1 (-1)
              [(_visit_site "example.com", 2, 0)]
              [EStep 0; ENew [0%nat]; EGet "example.net" 3 0; EStep 0;
               EClose; EStep 0])
    as (_ & Hth & _).
  - vm_compute. reflexivity.
  - vm_compute. reflexivity.
  - lia.
  - exact Hth.
Defined.

Lemma calls_touch_no_browser_witness :
  executed (run [ENew []; EGet "example.org" 1 0; EClose; ENew []]
              (@initial counting_browser)) = [].
Proof.
  apply (@calls_touch_no_browser counting_browser
           [ENew []; EGet "example.org" 1 0; EClose; ENew []]).
  reflexivity.
Defined.

Lemma no_teardown_without_close_witness :
  teardowns (run [ENew [0%nat; 0%nat]; EStep 0; EGet "example.org" 1 0;
                  EStep 0; EStep 0]
               (@initial counting_browser)) = 0%nat.
Proof.
  apply (@no_teardown_without_close counting_browser
           [ENew [0%nat; 0%nat]; EStep 0; EGet "example.org" 1 0;
            EStep 0; EStep 0]).
  reflexivity.
Defined.

End ExecutorRuns.

(** ** Further properties of the task constructor *)

Module IEBrowserRuns.
Import IEManager IEBrowser.

(** The constructor succeeds exactly on Windows, when the constructor of
    the base class succeeds, the configuration has a [close_browser] entry
    and [IEManager()] returns; a configuration without that entry raises
    [KeyError]. When it raises before [IEManager()] is reached, the shared
    state of [IEManager] is as it was; when [IEManager()] raises, the
    exception is [AttributeError] and no queue is left. When it succeeds,
    the instance holds the configured flag and a queue exists. *)
Theorem init_cases `{!Browser} (platform_system : string)
    (super_init : result unit) (config : gmap string value)
    (mid : list nat) (st : state) :
  let r := __init__ platform_system super_init config mid st in
  (is_Ok (fst r) = true <->
     platform_system = "Windows" /\ is_Ok super_init = true
     /\ is_Some (config !! "close_browser")
     /\ is_Ok (snd (__new__ mid st)) = true)
  /\ (platform_system <> "Windows" \/ is_Ok super_init = false
      \/ config !! "close_browser" = None -> snd r = st)
  /\ (platform_system = "Windows" -> is_Ok super_init = true ->
      config !! "close_browser" = None ->
      fst r = Raise (KeyError "close_browser"))
  /\ (platform_system = "Windows" -> is_Ok super_init = true ->
      is_Some (config !! "close_browser") ->
      is_Ok (snd (__new__ mid st)) = false ->
      fst r = Raise AttributeError /\ _action_queue (snd r) = None)
  /\ (forall self : t, fst r = Ok self ->
        config !! "close_browser" = Some (_close self)
        /\ snd r = fst (__new__ mid st)
        /\ is_Some (_action_queue (snd r))).
Proof.
  unfold __init__.
  pose proof (IEManagerFacts.new_outcome mid st) as Hout.
  destruct (String.eqb_spec platform_system "Windows") as [Hp|Hp]; simpl.
  - destruct super_init as [[]|e]; simpl.
    + destruct (config !! "close_browser") as [c|] eqn:Hc; simpl.
      * destruct (__new__ mid st) as [st' [[]|e]]; simpl in *.
        -- split; [split; eauto|].
           split; [intros [H1|[H1|H1]]; [contradiction|discriminate..]|].
           split; [discriminate|]. split; [discriminate|].
           intros self [= <-]. auto.
        -- destruct Hout as (-> & _ & Hq).
           split; [split; [discriminate|]|].
           ++ intros (_ & _ & _ & Hn). discriminate.
           ++ split;
                [intros [H1|[H1|H1]]; [contradiction|discriminate..]|].
              split; [discriminate|]. split; [auto|]. discriminate.
      * split; [split; [discriminate|]|].
        -- intros (_ & _ & [c Hc'] & _). discriminate.
        -- split; [reflexivity|]. split; [reflexivity|].
           split; [intros _ _ [c Hc']; discriminate|]. discriminate.
    + split; [split; [discriminate|]|].
      * intros (_ & Hs & _). discriminate.
      * split; [reflexivity|]. split; [discriminate|].
        split; [discriminate|]. discriminate.
  - split; [split; [discriminate|]|].
    + intros (Hp' & _). contradiction.
    + split; [reflexivity|]. split; [contradiction|].
      split; [contradiction|]. discriminate.
Qed.

(** The construction of a task when shutdown was requested with no
    executor in place, and the new consumer runs before the first [put]:
    [IEManager()] raises. *)
Lemma init_cases_witness :
  fst (__init__ "Windows" (Ok tt) {[ "close_browser" := VBool false ]}
         [0%nat; 0%nat]
         (close_browser (@initial counting_browser)))
  = Raise AttributeError.
Proof.
  apply (proj1 (proj2 (proj2 (proj2
           (@init_cases counting_browser "Windows" (Ok tt)
              {[ "close_browser" := VBool false ]} [0%nat; 0%nat]
              (close_browser (@initial counting_browser))))))).
  - reflexivity.
  - reflexivity.
  - exists (VBool false). reflexivity.
  - vm_compute. reflexivity.
Defined.

End IEBrowserRuns.
